(** * Polygon area computation of the GIS layer

    A shallow embedding of the area code of [gis.js]: the Web-Mercator
    shoelace version (the file carrying the "Improvements" header) and the
    earlier fixed-multiplier version.  A JavaScript Number is an IEEE 754
    binary64 value, so numbers are Rocq's primitive floats and every
    arithmetic step below rounds exactly as the script's does.  [Math.log]
    and [Math.tan] are implementation-approximated in ECMAScript: they are a
    parameter of the development (class [MathHost]). *)

From Stdlib Require Import Floats ZArith List Bool Lia.
From Stdlib Require Uint63.
Import ListNotations.

#[local] Set Warnings "-inexact-float".
#[local] Open Scope float_scope.

(** ** Numbers and the host's Math object *)

(** [Math.PI], the binary64 value nearest to pi. *)
Definition Math_PI : float := 3.141592653589793.

(** [Math.abs]. *)
Definition Math_abs (x : float) : float := abs x.

(** The binary64 value of a non-negative integer below 2^63. *)
Definition float_of_Z (n : Z) : float := of_uint63 (Uint63.of_Z n).

(** [Math.round]: the integral Number closest to [x], ties towards
    +Infinity; NaN, the infinities and the zeros are returned unchanged, and
    a negative [x] no smaller than -0.5 gives -0.  A finite value with a
    non-negative exponent is integral already; otherwise the value is
    [m * 2^e] with [e < 0], and the result is [floor (m * 2^e + 1/2)]. *)
Definition Math_round (x : float) : float :=
  match Prim2SF x with
  | S754_finite s m e =>
      if (0 <=? e)%Z then x
      else
        let sm := if s then Z.neg m else Z.pos m in
        let n := ((sm + 2 ^ (- e - 1)) / 2 ^ (- e))%Z in
        if (n =? 0)%Z then (if s then neg_zero else zero)
        else if (0 <? n)%Z then float_of_Z n
        else - float_of_Z (- n)
  | _ => x
  end.

(** The two functions of [Math] whose results the language leaves to the
    implementation. *)
Class MathHost : Type := {
  Math_log : float -> float;
  Math_tan : float -> float
}.

(** The truth value of a Number in a condition: false for NaN, +0 and -0. *)
Definition truthy (x : float) : bool := negb (is_nan x || is_zero x).

(** ** Data: ESRI polygon geometry *)

(** A point is the array [[lon, lat]]. *)
Definition Point : Type := (float * float)%type.

Definition Ring : Type := list Point.

(** The geometry object; its [rings] property may be absent. *)
Record Geometry : Type := mkGeometry { rings : option (list Ring) }.

(** A feature of a query response; its [geometry] may be absent. *)
Record Feature : Type := mkFeature { geometry : option Geometry }.

(** What [ring[i]] is read as outside the array: [undefined], whose
    coordinates enter arithmetic as NaN.  The loops below never index
    outside the ring. *)
Definition undefined_point : Point := (nan, nan).

Definition at_index (ring : Ring) (i : nat) : Point := nth i ring undefined_point.

(** ** Ring orientation on raw longitude/latitude *)

(** The loop of [signedAreaLonLat]:
    [for (i = 0, j = ring.length - 1; i < ring.length; j = i++)];
    [fuel] counts the iterations left. *)
Fixpoint signedAreaLoop (ring : Ring) (fuel i j : nat) (sum : float) : float :=
  match fuel with
  | O => sum
  | S fuel' =>
      let '(xi, yi) := at_index ring i in
      let '(xj, yj) := at_index ring j in
      signedAreaLoop ring fuel' (S i) i (sum + (xj - xi) * (yi + yj))
  end.

Definition signedAreaLonLat (ring : Ring) : float :=
  signedAreaLoop ring (length ring) 0 (length ring - 1) 0 / 2.

(** The same loop with its reads spelled out: [ring[i][0]] throws a
    [TypeError] when [ring[i]] is [undefined], that is when [i] is outside
    the array; [None] stands for the throw. *)
Fixpoint signedAreaLoop_reads (ring : Ring) (fuel i j : nat) (sum : float)
  : option float :=
  match fuel with
  | O => Some sum
  | S fuel' =>
      match nth_error ring i, nth_error ring j with
      | Some (xi, yi), Some (xj, yj) =>
          signedAreaLoop_reads ring fuel' (S i) i (sum + (xj - xi) * (yi + yj))
      | _, _ => None
      end
  end.

Definition signedAreaLonLat_reads (ring : Ring) : option float :=
  option_map (fun sum => sum / 2)
    (signedAreaLoop_reads ring (length ring) 0 (length ring - 1) 0).

(** ** The Web-Mercator shoelace area *)

Section Mercator.

Context {host : MathHost}.

(** Earth radius of the spherical Mercator projection, in meters. *)
Definition R : float := 6378137.

Definition lonLatToMercator (lon lat : float) : float * float :=
  let lambda := (lon * Math_PI) / 180 in
  let phi := (lat * Math_PI) / 180 in
  let x := R * lambda in
  let y := R * Math_log (Math_tan (Math_PI / 4 + phi / 2)) in
  (x, y).

(** The loop of [ringAreaMeters2]: [for (i = 1; i < ring.length; i++)],
    carrying [prev] and [area]. *)
Fixpoint ringAreaLoop (ring : Ring) (fuel i : nat) (prev : float * float) (area : float)
  : (float * float) * float :=
  match fuel with
  | O => (prev, area)
  | S fuel' =>
      let curr := lonLatToMercator (fst (at_index ring i)) (snd (at_index ring i)) in
      ringAreaLoop ring fuel' (S i) curr (area + (fst prev * snd curr - fst curr * snd prev))
  end.

Definition ringAreaMeters2 (ring : Ring) : float :=
  if (length ring <? 3)%nat then 0
  else
    let prev0 := lonLatToMercator (fst (at_index ring 0)) (snd (at_index ring 0)) in
    let '(prev, area) := ringAreaLoop ring (length ring - 1) 1 prev0 0 in
    let first := lonLatToMercator (fst (at_index ring 0)) (snd (at_index ring 0)) in
    let area := area + (fst prev * snd first - fst first * snd prev) in
    Math_abs area / 2.

(** [ringAreaMeters2] with its reads spelled out, [None] for a throw. *)
Fixpoint ringAreaLoop_reads (ring : Ring) (fuel i : nat) (prev : float * float)
  (area : float) : option ((float * float) * float) :=
  match fuel with
  | O => Some (prev, area)
  | S fuel' =>
      match nth_error ring i with
      | Some (lon, lat) =>
          let curr := lonLatToMercator lon lat in
          ringAreaLoop_reads ring fuel' (S i) curr
            (area + (fst prev * snd curr - fst curr * snd prev))
      | None => None
      end
  end.

Definition ringAreaMeters2_reads (ring : Ring) : option float :=
  if (length ring <? 3)%nat then Some 0
  else
    match nth_error ring 0 with
    | Some (lon0, lat0) =>
        let prev0 := lonLatToMercator lon0 lat0 in
        match ringAreaLoop_reads ring (length ring - 1) 1 prev0 0 with
        | Some (prev, area) =>
            let first := lonLatToMercator lon0 lat0 in
            let area := area + (fst prev * snd first - fst first * snd prev) in
            Some (Math_abs area / 2)
        | None => None
        end
    | None => None
    end.

(** One iteration of the loop over [geometry.rings]. *)
Definition addRing (totalMeters2 : float) (ring : Ring) : float :=
  let signed := signedAreaLonLat ring in
  let m2 := ringAreaMeters2 ring in
  if signed <? 0 then totalMeters2 - m2 else totalMeters2 + m2.

(** [totalMeters2] when the loop over the rings ends. *)
Definition totalMeters2 (rs : list Ring) : float := fold_left addRing rs 0.

Definition meters2ToSqFt : float := 10.76391041671.

(** [totalSqFt]. *)
Definition totalSqFt (rs : list Ring) : float := totalMeters2 rs * meters2ToSqFt.

(** [calculatePolygonAreaSqFt]; [None] is the script's [null]. *)
Definition calculatePolygonAreaSqFt (geometry : option Geometry) : option float :=
  match geometry with
  | None => None
  | Some g =>
      match rings g with
      | None => None
      | Some [] => None
      | Some rs =>
          if 0 <? totalSqFt rs then Some (Math_round (totalSqFt rs)) else None
      end
  end.

(** One call of the [forEach] callback of [fetchBuildingFootprintArea]. *)
Definition addFeature (totalSqFt : float) (feature : Feature) : float :=
  match calculatePolygonAreaSqFt (geometry feature) with
  | Some area => if truthy area then totalSqFt + area else totalSqFt
  | None => totalSqFt
  end.

(** [fetchBuildingFootprintArea] from the parsed response on: [features] is
    [data.features], absent when the response has none. *)
Definition fetchBuildingFootprintArea (features : option (list Feature)) : option float :=
  match features with
  | None => None
  | Some [] => None
  | Some fs =>
      let totalSqFt := fold_left addFeature fs 0 in
      if truthy totalSqFt then Some (Math_round totalSqFt) else None
  end.

(** What a polygon adds to the sum of areas: its area, and zero when the
    area is unavailable. *)
Definition contribution (area : option float) : float :=
  match area with
  | Some a => a
  | None => 0
  end.

(** The sum of the areas of the features, in response order. *)
Definition areaSum (fs : list Feature) : float :=
  fold_left (fun total f => total + contribution (calculatePolygonAreaSqFt (geometry f))) fs 0.

End Mercator.

(** ** The fixed-multiplier version (src/gis.js) *)

Module Legacy.

(** What a call does: it returns, or it throws a [TypeError]. *)
Inductive outcome : Type :=
| Returned (v : option float)
| Threw.

(** The loop [for (i = 0, j = ring.length - 1; i < ring.length; j = i++)]. *)
Fixpoint areaLoop (ring : Ring) (fuel i j : nat) (area : float) : float :=
  match fuel with
  | O => area
  | S fuel' =>
      let '(x1, y1) := at_index ring i in
      let '(x2, y2) := at_index ring j in
      areaLoop ring fuel' (S i) i (area + (x2 - x1) * (y2 + y1))
  end.

(** [calculatePolygonAreaSqFt] of src/gis.js.  With an empty [rings] array
    [geometry.rings[0]] is [undefined] and reading its [length] throws. *)
Definition calculatePolygonAreaSqFt (geometry : option Geometry) : outcome :=
  match geometry with
  | None => Returned None
  | Some g =>
      match rings g with
      | None => Returned None
      | Some [] => Threw
      | Some (ring :: _) =>
          let area := areaLoop ring (length ring) 0 (length ring - 1) 0 in
          let areaSqMeters := Math_abs area * 12365 in
          let areaSqFt := areaSqMeters * 10.7639 in
          Returned (Some areaSqFt)
      end
  end.

End Legacy.

(** ** A reference host

    One admissible [Math.log] and [Math.tan], computed in binary64 from
    their series, with the results ECMAScript fixes at the special
    arguments.  It makes the embedding run on concrete geometry. *)

Module ReferenceHost.

(** [1/k + z/(k+2) + z^2/(k+4) + ...], [n+1] terms, by Horner's rule. *)
Fixpoint inverse_odd_series (n : nat) (z k : float) : float :=
  match n with
  | O => 1 / k
  | S n' => 1 / k + z * inverse_odd_series n' z (k + 2)
  end.

(** [1 - z/(k(k+1)) (1 - z/((k+2)(k+3)) (...))]: cosine for [k = 1], and
    sine over its argument for [k = 2], at [z] the argument squared. *)
Fixpoint alternating_series (n : nat) (z k : float) : float :=
  match n with
  | O => 1
  | S n' => 1 - z / (k * (k + 1)) * alternating_series n' z (k + 2)
  end.

Definition ln2 : float := 0.6931471805599453.
Definition sqrt_half : float := 0.7071067811865476.

(** The exponent of [frexp] as a float. *)
Definition exponent_float (e : Z) : float :=
  if (0 <=? e)%Z then float_of_Z e else - float_of_Z (- e).

Definition log (x : float) : float :=
  if is_nan x then nan
  else if x <? 0 then nan
  else if is_zero x then neg_infinity
  else if is_infinity x then infinity
  else
    let '(m, e) := Z.frexp x in
    let '(m, e) := if m <? sqrt_half then (2 * m, (e - 1)%Z) else (m, e) in
    let s := (m - 1) / (m + 1) in
    exponent_float e * ln2 + 2 * s * inverse_odd_series 16 (s * s) 1.

(** pi/2 as the sum of a binary64 value and the remainder. *)
Definition pio2_hi : float := 1.5707963267948966.
Definition pio2_lo : float := 6.123233995736766e-17.

(** The integer a finite float of integral value stands for, truncating. *)
Definition integer_of (x : float) : Z :=
  match Prim2SF x with
  | S754_finite s m e =>
      let a := if (0 <=? e)%Z then (Z.pos m * 2 ^ e)%Z else (Z.pos m / 2 ^ (- e))%Z in
      if s then (- a)%Z else a
  | _ => 0%Z
  end.

Definition tan (x : float) : float :=
  if is_nan x || is_infinity x then nan
  else if is_zero x then x
  else
    let k := Math_round (x / pio2_hi) in
    let r := (x - k * pio2_hi) - k * pio2_lo in
    let z := r * r in
    let s := r * alternating_series 12 z 2 in
    let c := alternating_series 12 z 1 in
    if Z.odd (integer_of k) then - (c / s) else s / c.

#[export] Instance reference : MathHost := {| Math_log := log; Math_tan := tan |}.

End ReferenceHost.

(** * Verification *)

(** ** Binary64 facts used below

    The primitive operations are specified on [spec_float] by the axioms of
    [FloatAxioms]; the facts here are read off those specifications. *)

Section FloatFacts.

(** [has_sign s x]: [x] is NaN, a zero, or carries the sign bit [s]. *)
Definition has_sign (s : bool) (x : spec_float) : Prop :=
  match x with
  | S754_nan | S754_zero _ => True
  | S754_infinity s' | S754_finite s' _ _ => s' = s
  end.

Lemma binary_round_aux_shape : forall s m e l,
  let r := binary_round_aux prec emax s m e l in
  r = S754_nan \/ r = S754_zero s \/ r = S754_infinity s
  \/ exists m' e', r = S754_finite s m' e'.
Proof.
  intros s m e l r. subst r. unfold binary_round_aux.
  destruct (shr_fexp prec emax m e l) as [mrs' e'].
  destruct (shr_fexp prec emax _ e' loc_Exact) as [mrs'' e''].
  destruct (shr_m mrs'') as [|p|p].
  - right; left; reflexivity.
  - destruct (e'' <=? emax - prec)%Z.
    + right; right; right. exists p, e''. reflexivity.
    + right; right; left; reflexivity.
  - left; reflexivity.
Qed.

Lemma binary_round_aux_sign : forall s m e l,
  has_sign s (binary_round_aux prec emax s m e l).
Proof.
  intros s m e l.
  destruct (binary_round_aux_shape s m e l) as [H|[H|[H|(m' & e' & H)]]];
    rewrite H; simpl; auto.
Qed.

Lemma SFabs_sign : forall x, has_sign false (SFabs x).
Proof. destruct x; simpl; auto. Qed.

Lemma SFdiv_sign : forall x sy my ey,
  has_sign false x -> has_sign sy (SF64div x (S754_finite sy my ey)).
Proof.
  intros [sx|sx| |sx mx ex] sy my ey Hx; simpl in *; subst; simpl; auto.
  destruct (SFdiv_core_binary prec emax (Z.pos mx) ex (Z.pos my) ey) as [[mz ez] lz].
  apply binary_round_aux_sign.
Qed.

Lemma SFmul_sign : forall x s my ey,
  has_sign s x -> has_sign s (SF64mul x (S754_finite false my ey)).
Proof.
  intros [sx|sx| |sx mx ex] s my ey Hx; simpl in *; subst; auto.
  - now rewrite xorb_false_r.
  - rewrite xorb_false_r. apply binary_round_aux_sign.
Qed.

Lemma SFsub_zero_sign : forall sz x,
  has_sign false x -> has_sign true (SF64sub (S754_zero sz) x).
Proof.
  intros sz [sx|sx| |sx mx ex] Hx; simpl in *; subst; auto.
  destruct sz, sx; simpl; auto.
Qed.

Lemma SFadd_zero_l : forall x,
  has_sign false x -> x <> S754_zero true -> SF64add (S754_zero false) x = x.
Proof.
  intros [sx|sx| |sx mx ex] Hx Hz; simpl in *; subst; auto.
  destruct sx; congruence.
Qed.

Lemma SFltb_zero_sign : forall sz x,
  has_sign true x -> SFltb (S754_zero sz) x = false.
Proof.
  intros sz [sx|sx| |sx mx ex] Hx; simpl in *; subst; reflexivity.
Qed.

Lemma SFcompare_refl_finite : forall s m e,
  SFcompare (S754_finite s m e) (S754_finite s m e) = Some Eq.
Proof.
  intros s m e. simpl. rewrite Z.compare_refl.
  assert (Pos.compare_cont Eq m m = Eq) as -> by apply Pos.compare_cont_refl.
  destruct s; reflexivity.
Qed.

(** The test [t > 0] fails exactly on [t <= 0] and on NaN. *)
Lemma gt_zero_spec : forall t : float,
  (0 <? t) = negb ((t <=? 0) || is_nan t).
Proof.
  intro t. unfold is_nan.
  rewrite FloatAxioms.ltb_spec, FloatAxioms.leb_spec, FloatAxioms.eqb_spec.
  change (Prim2SF 0) with (S754_zero false).
  unfold SFltb, SFleb, SFeqb.
  destruct (Prim2SF t) as [s|s| |s m e].
  - reflexivity.
  - destruct s; reflexivity.
  - reflexivity.
  - rewrite SFcompare_refl_finite. destruct s; reflexivity.
Qed.

(** [sign_bit s x]: [x] is NaN or carries the sign bit [s], zeros included. *)
Definition sign_bit (s : bool) (x : spec_float) : Prop :=
  match x with
  | S754_nan => True
  | S754_zero s' | S754_infinity s' | S754_finite s' _ _ => s' = s
  end.

Lemma sign_bit_has_sign : forall s x, sign_bit s x -> has_sign s x.
Proof. intros s [sx|sx| |sx mx ex] H; simpl in *; auto. Qed.

Lemma binary_round_aux_sign_bit : forall s m e l,
  sign_bit s (binary_round_aux prec emax s m e l).
Proof.
  intros s m e l.
  destruct (binary_round_aux_shape s m e l) as [H|[H|[H|(m' & e' & H)]]];
    rewrite H; simpl; auto.
Qed.

Lemma SFabs_sign_bit : forall x, sign_bit false (SFabs x).
Proof. destruct x; simpl; auto. Qed.

Lemma SFdiv_sign_bit : forall x my ey,
  sign_bit false x -> sign_bit false (SF64div x (S754_finite false my ey)).
Proof.
  intros [sx|sx| |sx mx ex] my ey Hx; simpl in *; subst; simpl; auto.
  destruct (SFdiv_core_binary prec emax (Z.pos mx) ex (Z.pos my) ey) as [[mz ez] lz].
  apply binary_round_aux_sign_bit.
Qed.



Lemma Prim2SF_zero : Prim2SF 0 = S754_zero false.
Proof. reflexivity. Qed.

Lemma Prim2SF_two : Prim2SF 2 = S754_finite false 4503599627370496 (-51).
Proof. reflexivity. Qed.

Lemma Prim2SF_meters2ToSqFt :
  Prim2SF meters2ToSqFt = S754_finite false 6059542867718070 (-49).
Proof. reflexivity. Qed.

(** A total that is NaN, a zero or negative is not [> 0] after conversion. *)
Lemma not_positive_after_conversion : forall t : float,
  has_sign true (Prim2SF t) -> (0 <? t * meters2ToSqFt) = false.
Proof.
  intros t Ht.
  rewrite FloatAxioms.ltb_spec, FloatAxioms.mul_spec, Prim2SF_zero, Prim2SF_meters2ToSqFt.
  apply SFltb_zero_sign, SFmul_sign, Ht.
Qed.

(** ** Numbers equal up to the sign of zero *)

Definition is_zero_sf (x : spec_float) : Prop :=
  match x with S754_zero _ => True | _ => False end.

(** [same_number a b]: the same value, +0 and -0 being one value. *)
Definition same_number (a b : float) : Prop :=
  Prim2SF a = Prim2SF b \/ (is_zero_sf (Prim2SF a) /\ is_zero_sf (Prim2SF b)).

Lemma same_number_refl : forall a, same_number a a.
Proof. intros a. left. reflexivity. Qed.

Lemma SFadd_zeros : forall x y z,
  is_zero_sf x -> is_zero_sf y ->
  SF64add x z = SF64add y z \/ (is_zero_sf (SF64add x z) /\ is_zero_sf (SF64add y z)).
Proof.
  intros [sx|sx| |sx mx ex] [sy|sy| |sy my ey] z Hx Hy; simpl in Hx, Hy; try contradiction.
  destruct z as [sz|sz| |sz mz ez]; simpl.
  - right. destruct sx, sy, sz; simpl; auto.
  - left. reflexivity.
  - left. reflexivity.
  - left. reflexivity.
Qed.

Lemma SFsub_zeros : forall x y z,
  is_zero_sf x -> is_zero_sf y ->
  SF64sub x z = SF64sub y z \/ (is_zero_sf (SF64sub x z) /\ is_zero_sf (SF64sub y z)).
Proof.
  intros [sx|sx| |sx mx ex] [sy|sy| |sy my ey] z Hx Hy; simpl in Hx, Hy; try contradiction.
  destruct z as [sz|sz| |sz mz ez]; simpl.
  - right. destruct sx, sy, sz; simpl; auto.
  - left. reflexivity.
  - left. reflexivity.
  - left. reflexivity.
Qed.

Lemma same_number_add : forall a b c, same_number a b -> same_number (a + c) (b + c).
Proof.
  intros a b c [H|[Ha Hb]]; unfold same_number; rewrite !FloatAxioms.add_spec.
  - left. rewrite H. reflexivity.
  - apply SFadd_zeros; assumption.
Qed.

Lemma same_number_sub : forall a b c, same_number a b -> same_number (a - c) (b - c).
Proof.
  intros a b c [H|[Ha Hb]]; unfold same_number; rewrite !FloatAxioms.sub_spec.
  - left. rewrite H. reflexivity.
  - apply SFsub_zeros; assumption.
Qed.

(** Adding or subtracting the literal 0 leaves the number as it is. *)
Lemma same_number_add_zero : forall a, same_number (a + 0) a.
Proof.
  intros a. unfold same_number. rewrite FloatAxioms.add_spec, Prim2SF_zero.
  destruct (Prim2SF a) as [s|s| |s m e]; simpl; auto.
  destruct s; simpl; auto.
Qed.

Lemma same_number_sub_zero : forall a, same_number (a - 0) a.
Proof.
  intros a. unfold same_number. rewrite FloatAxioms.sub_spec, Prim2SF_zero.
  destruct (Prim2SF a) as [s|s| |s m e]; simpl; auto.
  destruct s; simpl; auto.
Qed.

(** Numbers equal up to the sign of zero convert to the same result. *)
Lemma same_number_conversion : forall a b,
  same_number a b ->
  (if 0 <? a * meters2ToSqFt then Some (Math_round (a * meters2ToSqFt)) else None)
  = (if 0 <? b * meters2ToSqFt then Some (Math_round (b * meters2ToSqFt)) else None).
Proof.
  intros a b [H|[Ha Hb]].
  - apply Prim2SF_inj in H. subst. reflexivity.
  - assert (forall t, is_zero_sf (Prim2SF t) -> (0 <? t * meters2ToSqFt) = false) as Hz.
    { intros t Ht. apply not_positive_after_conversion.
      destruct (Prim2SF t); simpl in *; auto; contradiction. }
    rewrite (Hz a Ha), (Hz b Hb). reflexivity.
Qed.

End FloatFacts.

(** ** Rounding to nearest on [spec_float]

    What the claims need of binary64 rounding, from the definitions of
    [SpecFloat]: rounding a positive number never gives a zero or NaN, an
    integer below 2^53 converts exactly, and so [Math_round] of a positive
    number is a whole number or +Infinity. *)

Section RoundingFacts.

#[local] Open Scope Z_scope.

Lemma digits2_pos_bounds : forall p : positive,
  2 ^ (Z.pos (digits2_pos p) - 1) <= Z.pos p < 2 ^ Z.pos (digits2_pos p).
Proof.
  induction p as [p IH|p IH|]; cbn [digits2_pos].
  - rewrite Pos2Z.inj_succ.
    replace (Z.succ (Z.pos (digits2_pos p)) - 1) with (Z.succ (Z.pos (digits2_pos p) - 1)) by lia.
    rewrite !Z.pow_succ_r by lia. lia.
  - rewrite Pos2Z.inj_succ.
    replace (Z.succ (Z.pos (digits2_pos p)) - 1) with (Z.succ (Z.pos (digits2_pos p) - 1)) by lia.
    rewrite !Z.pow_succ_r by lia. lia.
  - simpl. lia.
Qed.

Lemma shr_1_m : forall mrs, 0 <= shr_m mrs -> shr_m (shr_1 mrs) = Z.div2 (shr_m mrs).
Proof.
  intros [m r s] H. simpl in *.
  destruct m as [|[p|p|]|p]; try reflexivity; lia.
Qed.

Lemma shr_m_iter : forall (n : positive) mrs,
  0 <= shr_m mrs -> shr_m (SpecFloat.iter_pos shr_1 n mrs) = Z.shiftr (shr_m mrs) (Z.pos n).
Proof.
  induction n as [n IH|n IH|]; intros mrs H; cbn [SpecFloat.iter_pos].
  - assert (0 <= shr_m (shr_1 mrs)) by (rewrite shr_1_m by assumption; apply Z.div2_nonneg; assumption).
    assert (0 <= shr_m (SpecFloat.iter_pos shr_1 n (shr_1 mrs))) by (rewrite IH by assumption; apply Z.shiftr_nonneg; assumption).
    rewrite IH, IH, shr_1_m by assumption.
    rewrite Z.div2_spec, !Z.shiftr_shiftr by lia. f_equal. lia.
  - assert (0 <= shr_m (SpecFloat.iter_pos shr_1 n mrs)) by (rewrite IH by assumption; apply Z.shiftr_nonneg; assumption).
    rewrite IH, IH by assumption.
    rewrite Z.shiftr_shiftr by lia. f_equal. lia.
  - rewrite shr_1_m by assumption. rewrite Z.div2_spec. reflexivity.
Qed.

Lemma shr_record_of_loc_m : forall m l, shr_m (shr_record_of_loc m l) = m.
Proof. intros m [|[]]; reflexivity. Qed.

Lemma fexp_ge_emin : forall e, emin <= fexp prec emax e.
Proof. intros e. unfold fexp. apply Z.le_max_r. Qed.

Lemma shr_fexp_pos : forall m e l,
  0 < m -> emin <= e ->
  0 < shr_m (fst (shr_fexp prec emax m e l)) /\ emin <= snd (shr_fexp prec emax m e l).
Proof.
  intros m e l Hm He. destruct m as [|p|p]; try lia.
  unfold shr_fexp, shr. cbn [Zdigits2].
  pose proof (digits2_pos_bounds p) as [Hlo _].
  set (d := Z.pos (digits2_pos p)) in *.
  destruct (fexp prec emax (d + e) - e) as [|k|k] eqn:Hk; cbn [fst snd];
    try (rewrite shr_record_of_loc_m; lia).
  rewrite shr_m_iter by (rewrite shr_record_of_loc_m; lia).
  rewrite shr_record_of_loc_m. split; [|lia].
  rewrite Z.shiftr_div_pow2 by lia.
  assert (Z.pos k = d - prec) as Hkd.
  { unfold fexp in Hk. lia. }
  apply Z.div_str_pos. split; [apply Z.pow_pos_nonneg; lia|].
  apply Z.le_trans with (2 := Hlo). apply Z.pow_le_mono_r; [lia|].
  rewrite Hkd. unfold prec. lia.
Qed.

Lemma round_nearest_even_pos : forall m l, 0 < m -> 0 < round_nearest_even m l.
Proof.
  intros m [|[]] H; simpl; try lia. destruct (Z.even m); lia.
Qed.

Lemma binary_round_aux_pos : forall s m e l,
  0 < m -> emin <= e ->
  binary_round_aux prec emax s m e l = S754_infinity s
  \/ exists m' e', binary_round_aux prec emax s m e l = S754_finite s m' e'.
Proof.
  intros s m e l Hm He. unfold binary_round_aux.
  pose proof (shr_fexp_pos m e l Hm He) as [H1 H1e].
  destruct (shr_fexp prec emax m e l) as [mrs' e']. cbn [fst snd] in *.
  pose proof (shr_fexp_pos _ e' loc_Exact
                (round_nearest_even_pos _ (loc_of_shr_record mrs') H1) H1e) as [H2 _].
  destruct (shr_fexp prec emax _ e' loc_Exact) as [mrs'' e'']. cbn [fst snd] in *.
  destruct (shr_m mrs'') as [|q|q]; try lia.
  destruct (e'' <=? emax - prec); [right; eauto|left; reflexivity].
Qed.

Lemma binary_round_pos : forall s p e,
  emin <= e ->
  binary_round prec emax s p e = S754_infinity s
  \/ exists m' e', binary_round prec emax s p e = S754_finite s m' e'.
Proof.
  intros s p e He. unfold binary_round, shl_align.
  pose proof (fexp_ge_emin (Z.pos (digits2_pos p) + e)).
  destruct (fexp prec emax (Z.pos (digits2_pos p) + e) - e);
    apply binary_round_aux_pos; lia.
Qed.

Lemma valid_finite_bounds : forall s m e,
  valid_binary (S754_finite s m e) = true ->
  emin <= e /\ Z.pos (digits2_pos m) <= prec /\ Z.pos m < 2 ^ prec.
Proof.
  intros s m e H. cbn [SpecFloat.valid_binary] in H. unfold bounded, canonical_mantissa in H.
  apply andb_prop in H as [Hc _]. apply Z.eqb_eq in Hc.
  unfold fexp in Hc.
  assert (Z.pos (digits2_pos m) <= prec) as Hd by lia.
  split; [lia|]. split; [exact Hd|].
  pose proof (digits2_pos_bounds m) as [_ Hhi].
  apply Z.lt_le_trans with (1 := Hhi). apply Z.pow_le_mono_r; lia.
Qed.

Lemma digits2_pos_iter_xO : forall k p,
  digits2_pos (Pos.iter xO p k) = (digits2_pos p + k)%positive.
Proof.
  intros k p. induction k as [|k IH] using Pos.peano_ind.
  - simpl. rewrite Pos.add_1_r. reflexivity.
  - rewrite Pos.iter_succ. cbn [digits2_pos]. rewrite IH, Pos.add_succ_r. reflexivity.
Qed.

Lemma pos_iter_xO_value : forall k p,
  Z.pos (Pos.iter xO p k) = Z.pos p * 2 ^ Z.pos k.
Proof.
  intros k p. induction k as [|k IH] using Pos.peano_ind.
  - simpl. lia.
  - rewrite Pos.iter_succ, Pos2Z.inj_succ, Z.pow_succ_r by lia.
    rewrite Pos2Z.inj_xO, IH. lia.
Qed.

Lemma binary_round_aux_canonical : forall s mz ez,
  canonical_mantissa prec emax mz ez = true ->
  (ez <=? emax - prec) = true ->
  binary_round_aux prec emax s (Z.pos mz) ez loc_Exact = S754_finite s mz ez.
Proof.
  intros s mz ez Hc He. apply Z.eqb_eq in Hc.
  unfold binary_round_aux, shr_fexp. cbn [Zdigits2].
  rewrite Hc, Z.sub_diag. cbn [shr shr_record_of_loc loc_of_shr_record shr_m
                               round_nearest_even Zdigits2].
  rewrite Hc, Z.sub_diag. cbn [shr shr_m]. rewrite He. reflexivity.
Qed.

(** An integer below 2^53 converts exactly. *)
Lemma binary_round_integer : forall p,
  Z.pos p < 2 ^ prec ->
  exists mz ez,
    binary_round prec emax false p 0 = S754_finite false mz ez
    /\ ez <= 0 /\ Z.pos mz = Z.pos p * 2 ^ (- ez).
Proof.
  intros p Hp.
  pose proof (digits2_pos_bounds p) as [Hlo _].
  assert (Z.pos (digits2_pos p) <= prec) as Hd.
  { destruct (Z.le_gt_cases (Z.pos (digits2_pos p)) prec) as [H|H]; [exact H|].
    exfalso. assert (2 ^ prec <= 2 ^ (Z.pos (digits2_pos p) - 1))
      by (apply Z.pow_le_mono_r; lia). lia. }
  unfold binary_round, shl_align.
  assert (fexp prec emax (Z.pos (digits2_pos p) + 0) = Z.pos (digits2_pos p) - prec) as Hf.
  { unfold fexp, SpecFloat.emin, prec, emax in *. lia. }
  rewrite Hf.
  destruct (Z.pos (digits2_pos p) - prec - 0) as [|k|k] eqn:Hk; try lia.
  - exists p, 0. split; [|split; [lia|simpl; lia]].
    apply binary_round_aux_canonical; [|reflexivity].
    unfold canonical_mantissa. apply Z.eqb_eq. rewrite Hf. lia.
  - exists (Pos.iter xO p k), (Z.pos (digits2_pos p) - prec).
    split; [|split; [lia|]].
    + apply binary_round_aux_canonical.
      * unfold canonical_mantissa. apply Z.eqb_eq.
        rewrite digits2_pos_iter_xO, Pos2Z.inj_add.
        unfold fexp, SpecFloat.emin, prec, emax in *. lia.
      * apply Z.leb_le. unfold prec, emax in *. lia.
    + rewrite pos_iter_xO_value. f_equal. f_equal. lia.
Qed.

(** [is_whole x]: [x] is a finite Number of integral value, that is a zero,
    or [m * 2^e] with [e] not negative or [2^(-e)] dividing [m]. *)
Definition is_whole (x : float) : bool :=
  match Prim2SF x with
  | S754_zero _ => true
  | S754_finite _ m e => (0 <=? e) || (Z.pos m mod 2 ^ (- e) =? 0)
  | _ => false
  end.

(** [nonneg_sf x]: [x] is not NaN and its sign bit is clear. *)
Definition nonneg_sf (x : spec_float) : Prop :=
  match x with
  | S754_nan => False
  | S754_zero s | S754_infinity s | S754_finite s _ _ => s = false
  end.

Lemma float_of_Z_exact : forall n,
  0 < n < 2 ^ prec ->
  exists mz ez,
    Prim2SF (float_of_Z n) = S754_finite false mz ez
    /\ ez <= 0 /\ Z.pos mz = n * 2 ^ (- ez).
Proof.
  intros n Hn. unfold float_of_Z.
  rewrite FloatAxioms.of_uint63_spec, Uint63.of_Z_spec.
  rewrite Z.mod_small.
  - destruct n as [|p|p]; try lia. cbn [binary_normalize].
    apply binary_round_integer. lia.
  - split; [lia|]. apply Z.lt_trans with (2 ^ prec); [lia|]. reflexivity.
Qed.

(** The integer [Math_round] computes for a positive [m * 2^e], [e < 0]. *)
Lemma rounded_integer_bounds : forall m e,
  e < 0 -> Z.pos m < 2 ^ prec ->
  0 <= (Z.pos m + 2 ^ (- e - 1)) / 2 ^ (- e) < 2 ^ prec.
Proof.
  intros m e He Hm.
  assert (0 < 2 ^ (- e - 1)) by (apply Z.pow_pos_nonneg; lia).
  assert (2 ^ (- e) = 2 * 2 ^ (- e - 1)) as Hp.
  { replace (- e) with (Z.succ (- e - 1)) at 1 by lia. apply Z.pow_succ_r. lia. }
  split.
  - apply Z.div_pos; lia.
  - apply Z.div_lt_upper_bound; [lia|].
    rewrite Hp. unfold prec in *.
    assert (2 ^ 53 = 9007199254740992) as E by reflexivity. rewrite E in *. nia.
Qed.

Lemma Prim2SF_cases_positive : forall t,
  (0 <? t)%float = true ->
  Prim2SF t = S754_infinity false \/ exists m e, Prim2SF t = S754_finite false m e.
Proof.
  intros t H. rewrite FloatAxioms.ltb_spec in H.
  change (Prim2SF 0) with (S754_zero false) in H.
  destruct (Prim2SF t) as [s|s| |s m e]; try discriminate.
  - destruct s; [discriminate|]. left; reflexivity.
  - destruct s; [discriminate|]. right; eauto.
Qed.

Lemma Math_round_positive : forall t,
  (0 <? t)%float = true ->
  nonneg_sf (Prim2SF (Math_round t))
  /\ (Math_round t = infinity \/ is_whole (Math_round t) = true).
Proof.
  intros t Ht.
  destruct (Prim2SF_cases_positive t Ht) as [Hinf|(m & e & Hfin)].
  - assert (Math_round t = t) as -> by (unfold Math_round; rewrite Hinf; reflexivity).
    rewrite Hinf. split; [reflexivity|]. left.
    apply Prim2SF_inj. rewrite Hinf. reflexivity.
  - pose proof (Prim2SF_valid t) as Hv. rewrite Hfin in Hv.
    apply valid_finite_bounds in Hv as (_ & _ & Hm).
    unfold Math_round. rewrite Hfin.
    destruct (Z.leb_spec 0 e) as [He|He].
    + rewrite Hfin. split; [reflexivity|]. right.
      unfold is_whole. rewrite Hfin.
      destruct (Z.leb_spec 0 e); [reflexivity|lia].
    + pose proof (rounded_integer_bounds m e He Hm) as Hn.
      set (n := (Z.pos m + 2 ^ (- e - 1)) / 2 ^ (- e)) in *.
      destruct (Z.eqb_spec n 0) as [Hz|Hz].
      * split; [reflexivity|right; reflexivity].
      * destruct (Z.ltb_spec 0 n) as [Hpos|Hneg]; [|lia].
        destruct (float_of_Z_exact n) as (mz & ez & Hsf & Hez & Hval); [lia|].
        rewrite Hsf. split; [reflexivity|]. right.
        unfold is_whole. rewrite Hsf, Hval, Z.mod_mul.
        -- apply orb_true_r.
        -- apply Z.pow_nonzero; lia.
Qed.

Lemma Prim2SF_half : Prim2SF 0.5 = S754_finite false 4503599627370496 (-53).
Proof. reflexivity. Qed.

Lemma Math_round_below_half : forall t,
  (0 <? t)%float = true -> (t <? 0.5)%float = true -> Math_round t = 0%float.
Proof.
  intros t Ht Hhalf.
  rewrite FloatAxioms.ltb_spec in Hhalf.
  rewrite Prim2SF_half in Hhalf.
  destruct (Prim2SF_cases_positive t Ht) as [Hinf|(m & e & Hfin)].
  - rewrite Hinf in Hhalf. discriminate.
  - pose proof (Prim2SF_valid t) as Hv. rewrite Hfin in Hv.
    apply valid_finite_bounds in Hv as (_ & _ & Hm).
    rewrite Hfin in Hhalf. unfold SFltb in Hhalf. cbn [SFcompare] in Hhalf.
    assert (e < -53 \/ (e = -53 /\ Z.pos m < 4503599627370496)) as He.
    { destruct (Z.compare_spec e (-53)) as [E|E|E]; try discriminate; [|left; exact E].
      right. split; [exact E|].
      destruct (Pos.compare_cont Eq m 4503599627370496) eqn:Hc; try discriminate.
      exact (proj1 (Pos.compare_lt_iff m 4503599627370496) Hc). }
    assert (Z.pos m < 2 ^ (- e - 1)) as Hsmall.
    { destruct He as [He|[He Hlt]].
      - apply Z.lt_le_trans with (1 := Hm). apply Z.pow_le_mono_r; unfold prec; lia.
      - subst e. change (2 ^ (- -53 - 1)) with 4503599627370496. exact Hlt. }
    unfold Math_round. rewrite Hfin.
    destruct (Z.leb_spec 0 e) as [Hge|_]; [lia|].
    assert (2 ^ (- e) = 2 * 2 ^ (- e - 1)) as Hp.
    { replace (- e) with (Z.succ (- e - 1)) at 1 by lia. apply Z.pow_succ_r. lia. }
    assert (0 < 2 ^ (- e - 1)) by (apply Z.pow_pos_nonneg; lia).
    rewrite Z.div_small by lia. reflexivity.
Qed.

(** [pos_sf x]: [x] is +Infinity or a positive finite number. *)
Definition pos_sf (x : spec_float) : Prop :=
  x = S754_infinity false \/ exists m e, x = S754_finite false m e.

Lemma SFadd_pos : forall x y,
  valid_binary x = true -> valid_binary y = true ->
  nonneg_sf x -> pos_sf y -> pos_sf (SF64add x y).
Proof.
  intros x y Hvx Hvy Hx Hy.
  destruct x as [sx|sx| |sx mx ex]; simpl in Hx; try contradiction; subst sx.
  - destruct Hy as [Hy|(my & ey & Hy)]; subst y; [left|right; exists my, ey]; reflexivity.
  - destruct Hy as [Hy|(my & ey & Hy)]; subst y; left; reflexivity.
  - destruct Hy as [Hy|(my & ey & Hy)]; subst y; [left; reflexivity|].
    apply valid_finite_bounds in Hvx as (Hex & _).
    apply valid_finite_bounds in Hvy as (Hey & _).
    unfold SF64add, SFadd, cond_Zopp. cbn [Z.add binary_normalize].
    apply binary_round_pos. lia.
Qed.

Lemma SFadd_zero_r : forall x, nonneg_sf x -> SF64add x (S754_zero false) = x.
Proof. intros [s|s| |s m e] H; simpl in *; try contradiction; subst; reflexivity. Qed.

Lemma truthy_nonneg : forall v,
  nonneg_sf (Prim2SF v) ->
  (truthy v = true /\ pos_sf (Prim2SF v)) \/ (truthy v = false /\ v = 0%float).
Proof.
  intros v H. unfold truthy, is_nan, is_zero.
  rewrite !FloatAxioms.eqb_spec. change (Prim2SF zero) with (S754_zero false).
  unfold SFeqb.
  destruct (Prim2SF v) as [s|s| |s m e] eqn:Hv; simpl in H; try contradiction; subst s.
  - right. split; [reflexivity|]. apply Prim2SF_inj. rewrite Hv. reflexivity.
  - left. split; [reflexivity|left; reflexivity].
  - left. rewrite SFcompare_refl_finite. split; [reflexivity|right; exists m, e; reflexivity].
Qed.

Lemma pos_sf_truthy : forall v, pos_sf (Prim2SF v) -> truthy v = true.
Proof.
  intros v H. unfold truthy, is_nan, is_zero.
  rewrite !FloatAxioms.eqb_spec. change (Prim2SF zero) with (S754_zero false).
  unfold SFeqb. destruct H as [H|(m & e & H)]; rewrite H.
  - reflexivity.
  - rewrite SFcompare_refl_finite. reflexivity.
Qed.

Lemma pos_sf_nonneg : forall x, pos_sf x -> nonneg_sf x.
Proof. intros x [H|(m & e & H)]; subst; reflexivity. Qed.

End RoundingFacts.

(** ** The specification's wording of the projected magnitude *)

Section SpecWording.

Context {host : MathHost}.

Definition radians (degrees : float) : float := degrees * Math_PI / 180.

(** [x = R * radians(longitude)], [y = R * ln(tan(pi/4 + radians(latitude)/2))]. *)
Definition spec_project (p : Point) : float * float :=
  (R * radians (fst p),
   R * Math_log (Math_tan (Math_PI / 4 + radians (snd p) / 2))).

(** Every point paired with its successor, the last one with the first. *)
Definition consecutive_pairs {A : Type} (l : list A) : list (A * A) :=
  combine l (tl l ++ firstn 1 l).

Definition cross (p q : float * float) : float := fst p * snd q - fst q * snd p.

(** The sum of the cross products over the consecutive pairs, in ring order. *)
Definition spec_shoelace (pts : list (float * float)) : float :=
  fold_left (fun acc pq => acc + cross (fst pq) (snd pq)) (consecutive_pairs pts) 0.

Definition spec_ring_magnitude (ring : Ring) : float :=
  abs (spec_shoelace (map spec_project ring)) / 2.

(** Step 4 of the specification, on the specification's magnitude. *)
Definition spec_accumulate (total : float) (ring : Ring) : float :=
  if signedAreaLonLat ring <? 0 then total - spec_ring_magnitude ring
  else total + spec_ring_magnitude ring.

End SpecWording.

(** ** The specification's wording of the orientation sign *)

(** Every point [i] of the ring with its predecessor [j], as pairs [(j, i)]:
    first the wrap-around pair, which closes the last point to the first,
    then the consecutive pairs in ring order. *)
Definition predecessor_pairs {A : Type} (l : list A) : list (A * A) :=
  match rev l with
  | [] => []
  | last_point :: _ => combine (last_point :: l) l
  end.

(** The term [(x_j - x_i) * (y_i + y_j)] of a pair [(j, i)]. *)
Definition trapezoid (ji : Point * Point) : float :=
  (fst (fst ji) - fst (snd ji)) * (snd (snd ji) + snd (fst ji)).

(** Step 1 of the specification: the sum of the terms over the pairs,
    divided by 2, on the raw longitude/latitude coordinates. *)
Definition spec_signed_area (ring : Ring) : float :=
  fold_left (fun sum ji => sum + trapezoid ji) (predecessor_pairs ring) 0 / 2.

(** Step 4 of the specification on that sign: a ring whose signed area is
    negative has its projected magnitude subtracted from the running total,
    any other ring has it added. *)
Definition sign_step {host : MathHost} (total : float) (ring : Ring) : float :=
  if spec_signed_area ring <? 0
  then total - ringAreaMeters2 ring
  else total + ringAreaMeters2 ring.

(** A geometry object with the given [rings] array. *)
Definition polygon (rs : list Ring) : option Geometry := Some (mkGeometry (Some rs)).

(** ** The loops, by recursion on the points *)

Section Loops.

Context {host : MathHost}.

(** [prev] and [area] after walking the projected points [qs]. *)
Definition walk (qs : list (float * float)) (prev : float * float) (area : float)
  : (float * float) * float :=
  fold_left (fun st q => (q, snd st + cross (fst st) q)) qs (prev, area).

Lemma at_index_middle : forall (pre : Ring) p rest,
  at_index (pre ++ p :: rest) (length pre) = p.
Proof. intros. unfold at_index. apply nth_middle. Qed.

Lemma lonLatToMercator_project : forall p,
  lonLatToMercator (fst p) (snd p) = spec_project p.
Proof. reflexivity. Qed.

Lemma ringAreaLoop_walk : forall rest pre prev area,
  ringAreaLoop (pre ++ rest) (length rest) (length pre) prev area
  = walk (map spec_project rest) prev area.
Proof.
  induction rest as [|p rest IH]; intros pre prev area.
  - reflexivity.
  - cbn [length ringAreaLoop map]. rewrite at_index_middle.
    rewrite lonLatToMercator_project.
    replace (pre ++ p :: rest) with ((pre ++ [p]) ++ rest)
      by (rewrite <- app_assoc; reflexivity).
    replace (S (length pre)) with (length (pre ++ [p]))
      by (rewrite length_app; simpl; lia).
    rewrite IH. reflexivity.
Qed.

Lemma shoelace_pairs_walk : forall qs prev first area,
  fold_left (fun acc pq => acc + cross (fst pq) (snd pq))
            (combine (prev :: qs) (qs ++ [first])) area
  = snd (walk qs prev area) + cross (fst (walk qs prev area)) first.
Proof.
  induction qs as [|q qs IH]; intros prev first area.
  - reflexivity.
  - change (fold_left (fun acc pq => acc + cross (fst pq) (snd pq))
              (combine (q :: qs) (qs ++ [first])) (area + cross prev q)
            = snd (walk qs q (area + cross prev q))
              + cross (fst (walk qs q (area + cross prev q))) first).
    apply IH.
Qed.

Lemma ringAreaMeters2_short : forall ring,
  (length ring < 3)%nat -> ringAreaMeters2 ring = 0.
Proof.
  intros ring H. unfold ringAreaMeters2.
  destruct (Nat.ltb_spec (length ring) 3); [reflexivity | lia].
Qed.

(** On a ring of three points or more the loop computes the magnitude the
    specification words. *)
Lemma ringAreaMeters2_spec : forall ring,
  (3 <= length ring)%nat -> ringAreaMeters2 ring = spec_ring_magnitude ring.
Proof.
  intros ring H. unfold ringAreaMeters2.
  destruct (Nat.ltb_spec (length ring) 3) as [Hlt|_]; [lia|].
  destruct ring as [|p0 rest]; [simpl in H; lia|].
  change (at_index (p0 :: rest) 0) with p0.
  rewrite lonLatToMercator_project.
  replace (length (p0 :: rest) - 1)%nat with (length rest) by (simpl; lia).
  pose proof (ringAreaLoop_walk rest [p0] (spec_project p0) 0) as Hw.
  cbn [app length] in Hw. rewrite Hw.
  unfold spec_ring_magnitude, spec_shoelace, consecutive_pairs.
  cbn [map tl firstn]. rewrite shoelace_pairs_walk.
  destruct (walk (map spec_project rest) (spec_project p0) 0) as [prev area].
  reflexivity.
Qed.

End Loops.

(** The orientation loop, by recursion on the points: with [prev] the point
    at index [j], the loop from index [length pre] on sums the terms of the
    remaining points, each paired with its predecessor. *)
Lemma signedAreaLoop_pairs : forall (rest pre : Ring) (prev : Point) j sum,
  at_index (pre ++ rest) j = prev ->
  signedAreaLoop (pre ++ rest) (length rest) (length pre) j sum
  = fold_left (fun sum ji => sum + trapezoid ji) (combine (prev :: rest) rest) sum.
Proof.
  induction rest as [|p rest IH]; intros pre prev j sum Hj.
  - reflexivity.
  - cbn [length signedAreaLoop]. rewrite at_index_middle, Hj.
    assert (pre ++ p :: rest = (pre ++ [p]) ++ rest) as Happ
      by (rewrite <- app_assoc; reflexivity).
    assert (S (length pre) = length (pre ++ [p])) as Hlen
      by (rewrite length_app; simpl; lia).
    assert (at_index ((pre ++ [p]) ++ rest) (length pre) = p) as Hprev
      by (rewrite <- app_assoc; apply at_index_middle).
    destruct p as [xi yi]. destruct prev as [xj yj].
    rewrite Hlen, Happ.
    rewrite (IH _ _ (length pre) (sum + (xj - xi) * (yi + yj)) Hprev).
    reflexivity.
Qed.

Lemma at_index_last : forall (ring : Ring) last_point l,
  rev ring = last_point :: l ->
  at_index ring (length ring - 1) = last_point.
Proof.
  intros ring last_point l H.
  assert (ring = rev l ++ [last_point]) as ->.
  { rewrite <- (rev_involutive ring), H. reflexivity. }
  rewrite length_app. cbn [length].
  replace (length (rev l) + 1 - 1)%nat with (length (rev l)) by lia.
  apply at_index_middle.
Qed.

(** The loop of [signedAreaLonLat] computes the signed area the
    specification words. *)
Lemma signedAreaLonLat_spec : forall ring : Ring,
  signedAreaLonLat ring = spec_signed_area ring.
Proof.
  intros ring. unfold signedAreaLonLat, spec_signed_area, predecessor_pairs.
  destruct (rev ring) as [|last_point l] eqn:Hrev.
  - assert (ring = []) as -> by (rewrite <- (rev_involutive ring), Hrev; reflexivity).
    reflexivity.
  - pose proof (signedAreaLoop_pairs ring [] last_point (length ring - 1) 0
                  (at_index_last ring last_point l Hrev)) as Hloop.
    cbn [app length] in Hloop. rewrite Hloop. reflexivity.
Qed.

(** ** Concrete geometry *)

Module Examples.

(** A one-degree square at the origin, counter-clockwise. *)
Definition ccw_square : Ring := [(0, 0); (1, 0); (1, 1); (0, 1)].

(** The same square, clockwise: the order ESRI gives an exterior ring. *)
Definition cw_square : Ring := [(0, 1); (1, 1); (1, 0); (0, 0)].

(** A triangle with a vertex on the south pole, where the projection's
    [y] is [R * Math.log(Math.tan(0))], that is -Infinity. *)
Definition pole_triangle : Ring := [(0, -90); (1, 0); (-1, 0)].

(** A triangle of about a centimetre. *)
Definition tiny_triangle : Ring := [(0, 0); (1e-7, 0); (0, 1e-7)].

(** A lot of a thousandth of a degree, counter-clockwise, and a clockwise
    hole of a ten-millionth of a degree inside it. *)
Definition lot : Ring := [(0, 0); (0.001, 0); (0.001, 0.001); (0, 0.001)].
Definition pinhole : Ring :=
  [(0.0005, 0.0005001); (0.0005001, 0.0005001); (0.0005001, 0.0005); (0.0005, 0.0005)].

(** A ring of two points. *)
Definition two_points : Ring := [(0, 0); (1, 1)].

End Examples.

(** ** The claims *)

Section Claims.

Context {host : MathHost}.

Lemma fold_addRing_sign_step : forall rs total,
  fold_left addRing rs total = fold_left sign_step rs total.
Proof.
  induction rs as [|ring rs IH]; intros total.
  - reflexivity.
  - cbn [fold_left]. rewrite IH. unfold addRing, sign_step.
    rewrite signedAreaLonLat_spec. reflexivity.
Qed.

(** The whole function in terms of the square-metre total; with no ring the
    total is 0, which converts to the marker as well. *)
Lemma calculatePolygonAreaSqFt_total : forall rs,
  calculatePolygonAreaSqFt (polygon rs)
  = if 0 <? totalMeters2 rs * meters2ToSqFt
    then Some (Math_round (totalMeters2 rs * meters2ToSqFt)) else None.
Proof. intros [|ring rs]; reflexivity. Qed.

(** C1. For every polygon and every ring in it, the value whose sign decides
    the ring's contribution is the signed shoelace area of the raw
    longitude/latitude points: the halved sum, over every point and its
    predecessor (wrap-around pair included), of [(x_j - x_i) * (y_i + y_j)],
    with no projection involved.  With [before] the rings already visited,
    the running total after [ring] is the total of [before] minus the ring's
    projected magnitude when that signed area is negative, and plus it
    otherwise; every other ring is treated alike, and the result is
    computed from the total so obtained. *)
Theorem C1_ring_sign_decides_contribution :
  forall (before after : list Ring) (ring : Ring),
    signedAreaLonLat ring = spec_signed_area ring
    /\ totalMeters2 before = fold_left sign_step before 0
    /\ totalMeters2 (before ++ ring :: after)
       = fold_left sign_step after
           (if spec_signed_area ring <? 0
            then totalMeters2 before - ringAreaMeters2 ring
            else totalMeters2 before + ringAreaMeters2 ring)
    /\ calculatePolygonAreaSqFt (polygon (before ++ ring :: after))
       = (let sqft := fold_left sign_step (before ++ ring :: after) 0 * 10.76391041671 in
          if 0 <? sqft then Some (Math_round sqft) else None).
Proof.
  intros before after ring.
  split; [apply signedAreaLonLat_spec|].
  split; [apply fold_addRing_sign_step|].
  split.
  - unfold totalMeters2. rewrite fold_left_app. cbn [fold_left].
    rewrite fold_addRing_sign_step. unfold addRing.
    rewrite signedAreaLonLat_spec. reflexivity.
  - rewrite calculatePolygonAreaSqFt_total. unfold totalMeters2.
    rewrite fold_addRing_sign_step. reflexivity.
Qed.

Lemma fold_accumulate_spec : forall rs total,
  Forall (fun ring => (3 <= length ring)%nat) rs ->
  fold_left addRing rs total = fold_left spec_accumulate rs total.
Proof.
  induction rs as [|ring rs IH]; intros total Hall.
  - reflexivity.
  - inversion Hall as [|? ? Hring Hrest]; subst.
    cbn [fold_left]. rewrite IH by assumption.
    unfold addRing, spec_accumulate.
    rewrite (ringAreaMeters2_spec ring Hring). reflexivity.
Qed.

(** C2. On a polygon whose rings all have at least three points, the result
    is computed from the projection [x = R * radians(lon)],
    [y = R * ln(tan(pi/4 + radians(lat)/2))] with [R = 6378137], each ring's
    magnitude being the absolute value of the shoelace sum over the
    consecutive projected pairs, wrap-around included, divided by 2; the
    accumulated square metres are multiplied by 10.76391041671. *)
Theorem C2_projected_shoelace_and_conversion :
  forall rs : list Ring,
    rs <> [] ->
    Forall (fun ring => (3 <= length ring)%nat) rs ->
    R = 6378137
    /\ Forall (fun ring => ringAreaMeters2 ring = spec_ring_magnitude ring) rs
    /\ calculatePolygonAreaSqFt (polygon rs)
       = let sqft := fold_left spec_accumulate rs 0 * 10.76391041671 in
         if 0 <? sqft then Some (Math_round sqft) else None.
Proof.
  intros rs Hne Hall. split; [reflexivity|]. split.
  - eapply Forall_impl; [|exact Hall].
    intros ring Hring. apply ringAreaMeters2_spec; exact Hring.
  - destruct rs as [|ring rs]; [congruence|].
    unfold calculatePolygonAreaSqFt, polygon. cbn [rings].
    unfold totalSqFt, totalMeters2.
    rewrite (fold_accumulate_spec _ _ Hall). reflexivity.
Qed.

(** C3, as the code has it. The result is the "unavailable" marker when the
    final square-feet total is at most 0 or is NaN; every other total, +Infinity
    included, is returned rounded by [Math.round]. *)
Theorem C3_unavailable_iff_not_positive :
  forall rs : list Ring,
    calculatePolygonAreaSqFt (polygon rs)
    = if (totalSqFt rs <=? 0) || is_nan (totalSqFt rs) then None
      else Some (Math_round (totalSqFt rs)).
Proof.
  intros rs. destruct rs as [|ring rs]; [reflexivity|].
  unfold calculatePolygonAreaSqFt, polygon. cbn [rings].
  rewrite gt_zero_spec.
  destruct ((totalSqFt (ring :: rs) <=? 0) || is_nan (totalSqFt (ring :: rs)));
    reflexivity.
Qed.

(** *** Magnitudes and totals *)

Lemma ringAreaMeters2_sign_bit : forall ring,
  sign_bit false (Prim2SF (ringAreaMeters2 ring)).
Proof.
  intros ring. unfold ringAreaMeters2.
  destruct (length ring <? 3)%nat; [rewrite Prim2SF_zero; reflexivity|].
  destruct (ringAreaLoop ring (length ring - 1) 1 _ 0) as [prev area].
  unfold Math_abs.
  rewrite FloatAxioms.div_spec, FloatAxioms.abs_spec, Prim2SF_two.
  apply SFdiv_sign_bit, SFabs_sign_bit.
Qed.


(** A sole ring of negative orientation is subtracted from 0: the total is
    not positive and the result is the marker. *)
Lemma negative_sole_ring_unavailable : forall ring,
  (signedAreaLonLat ring <? 0) = true ->
  calculatePolygonAreaSqFt (polygon [ring]) = None.
Proof.
  intros ring Hneg. rewrite calculatePolygonAreaSqFt_total.
  unfold totalMeters2. cbn [fold_left]. unfold addRing. rewrite Hneg.
  rewrite not_positive_after_conversion; [reflexivity|].
  rewrite FloatAxioms.sub_spec, Prim2SF_zero.
  apply SFsub_zero_sign, sign_bit_has_sign, ringAreaMeters2_sign_bit.
Qed.


(** *** Reads stay inside the ring *)

Lemma signedAreaLoop_reads_ok : forall ring fuel i j sum,
  (i + fuel <= length ring)%nat ->
  (fuel = 0 \/ j < length ring)%nat ->
  signedAreaLoop_reads ring fuel i j sum = Some (signedAreaLoop ring fuel i j sum).
Proof.
  intros ring fuel. induction fuel as [|fuel IH]; intros i j sum Hi Hj.
  - reflexivity.
  - destruct Hj as [Hj|Hj]; [discriminate|].
    cbn [signedAreaLoop_reads signedAreaLoop]. unfold at_index.
    rewrite (nth_error_nth' ring undefined_point (n := i)) by lia.
    rewrite (nth_error_nth' ring undefined_point (n := j)) by lia.
    destruct (nth i ring undefined_point) as [xi yi].
    destruct (nth j ring undefined_point) as [xj yj].
    apply IH; lia.
Qed.

Lemma signedAreaLonLat_reads_ok : forall ring,
  signedAreaLonLat_reads ring = Some (signedAreaLonLat ring).
Proof.
  intros ring. unfold signedAreaLonLat_reads, signedAreaLonLat.
  rewrite signedAreaLoop_reads_ok; [reflexivity|lia|].
  destruct ring; [left; reflexivity|right; simpl; lia].
Qed.

Lemma ringAreaLoop_reads_ok : forall ring fuel i prev area,
  (i + fuel <= length ring)%nat ->
  ringAreaLoop_reads ring fuel i prev area = Some (ringAreaLoop ring fuel i prev area).
Proof.
  intros ring fuel. induction fuel as [|fuel IH]; intros i prev area Hi.
  - reflexivity.
  - cbn [ringAreaLoop_reads ringAreaLoop]. unfold at_index.
    rewrite (nth_error_nth' ring undefined_point (n := i)) by lia.
    destruct (nth i ring undefined_point) as [lon lat]. cbn [fst snd].
    apply IH; lia.
Qed.

Lemma ringAreaMeters2_reads_ok : forall ring,
  ringAreaMeters2_reads ring = Some (ringAreaMeters2 ring).
Proof.
  intros ring. unfold ringAreaMeters2_reads, ringAreaMeters2.
  destruct (Nat.ltb_spec (length ring) 3) as [Hlt|Hge]; [reflexivity|].
  unfold at_index.
  rewrite (nth_error_nth' ring undefined_point (n := 0)) by lia.
  destruct (nth 0 ring undefined_point) as [lon0 lat0]. cbn [fst snd].
  rewrite ringAreaLoop_reads_ok by lia.
  destruct (ringAreaLoop ring (length ring - 1) 1 _ 0) as [prev area].
  reflexivity.
Qed.

(** *** Rings of fewer than three points *)

Lemma addRing_short : forall total short,
  (length short < 3)%nat -> same_number (addRing total short) total.
Proof.
  intros total short Hshort. unfold addRing.
  rewrite (ringAreaMeters2_short short Hshort).
  destruct (signedAreaLonLat short <? 0).
  - apply same_number_sub_zero.
  - apply same_number_add_zero.
Qed.

Lemma addRing_same_number : forall ring a b,
  same_number a b -> same_number (addRing a ring) (addRing b ring).
Proof.
  intros ring a b H. unfold addRing.
  destruct (signedAreaLonLat ring <? 0).
  - apply same_number_sub, H.
  - apply same_number_add, H.
Qed.

Lemma fold_addRing_same_number : forall rs a b,
  same_number a b -> same_number (fold_left addRing rs a) (fold_left addRing rs b).
Proof.
  induction rs as [|ring rs IH]; intros a b H; cbn [fold_left].
  - exact H.
  - apply IH, addRing_same_number, H.
Qed.

(** C7. A ring of fewer than three points inside a polygon raises nothing
    (both helpers read inside the ring and return), contributes a magnitude
    of exactly 0, and leaves the result what it is over the remaining rings
    alone. *)
Theorem C7_short_ring_contributes_nothing :
  forall (before after : list Ring) (short : Ring),
    (length short < 3)%nat ->
    signedAreaLonLat_reads short = Some (signedAreaLonLat short)
    /\ ringAreaMeters2_reads short = Some 0
    /\ calculatePolygonAreaSqFt (polygon (before ++ short :: after))
       = calculatePolygonAreaSqFt (polygon (before ++ after)).
Proof.
  intros before after short Hshort. split; [apply signedAreaLonLat_reads_ok|]. split.
  - rewrite ringAreaMeters2_reads_ok, (ringAreaMeters2_short short Hshort). reflexivity.
  - rewrite !calculatePolygonAreaSqFt_total.
    apply same_number_conversion.
    unfold totalMeters2. rewrite !fold_left_app. cbn [fold_left].
    apply fold_addRing_same_number, addRing_short, Hshort.
Qed.

(** *** Returned areas *)

Lemma nonneg_sf_leb : forall v, nonneg_sf (Prim2SF v) -> (0 <=? v) = true.
Proof.
  intros v H. rewrite FloatAxioms.leb_spec, Prim2SF_zero. unfold SFleb.
  destruct (Prim2SF v) as [s|s| |s m e]; simpl in H; try contradiction; subst;
    reflexivity.
Qed.

(** What the function returns, when it returns a number. *)
Lemma returned_area : forall (g : option Geometry) (v : float),
  calculatePolygonAreaSqFt g = Some v ->
  exists rs, g = polygon rs
    /\ (0 <? totalSqFt rs) = true /\ v = Math_round (totalSqFt rs).
Proof.
  intros [[[rs|]]|] v H; try discriminate. exists rs.
  destruct rs as [|ring rs]; [discriminate|].
  unfold calculatePolygonAreaSqFt in H. cbn [rings] in H.
  destruct (0 <? totalSqFt (ring :: rs)) eqn:Hpos; [|discriminate].
  injection H as <-. repeat split; assumption.
Qed.

Lemma returned_area_nonneg : forall g v,
  calculatePolygonAreaSqFt g = Some v -> nonneg_sf (Prim2SF v).
Proof.
  intros g v H. destruct (returned_area g v H) as (rs & _ & Hpos & ->).
  apply Math_round_positive, Hpos.
Qed.

Lemma returned_area_whole : forall g v,
  calculatePolygonAreaSqFt g = Some v -> v = infinity \/ is_whole v = true.
Proof.
  intros g v H. destruct (returned_area g v H) as (rs & _ & Hpos & ->).
  apply Math_round_positive, Hpos.
Qed.

(** C10, as the code has it. Whenever the function returns a number, that
    number is [Math.round] of a positive total: it is +Infinity (when the
    total is), or else a whole number that is not negative; a positive total
    below 0.5 is returned as 0. *)
Theorem C10_result_is_whole_or_infinite :
  forall (g : option Geometry) (v : float),
    calculatePolygonAreaSqFt g = Some v ->
    exists rs, g = polygon rs
      /\ (0 <? totalSqFt rs) = true
      /\ v = Math_round (totalSqFt rs)
      /\ (v = infinity \/ (is_whole v = true /\ (0 <=? v) = true))
      /\ ((totalSqFt rs <? 0.5) = true -> v = 0).
Proof.
  intros g v H. destruct (returned_area g v H) as (rs & Hg & Hpos & Hv).
  exists rs. repeat split; try assumption.
  - destruct (returned_area_whole g v H) as [Hinf|Hwhole]; [left; exact Hinf|].
    right. split; [exact Hwhole|].
    apply nonneg_sf_leb, (returned_area_nonneg g v H).
  - intros Hhalf. rewrite Hv. apply Math_round_below_half; assumption.
Qed.

(** *** The sum over the features *)

Definition contributes_nothing (f : Feature) : Prop :=
  calculatePolygonAreaSqFt (geometry f) = None
  \/ calculatePolygonAreaSqFt (geometry f) = Some 0.

Lemma plus_zero_nonneg : forall t, nonneg_sf (Prim2SF t) -> t + 0 = t.
Proof.
  intros t H. apply Prim2SF_inj.
  rewrite FloatAxioms.add_spec, Prim2SF_zero. apply SFadd_zero_r, H.
Qed.

Lemma truthy_zero : truthy 0 = false.
Proof. reflexivity. Qed.

Lemma addFeature_step : forall total f,
  nonneg_sf (Prim2SF total) ->
  addFeature total f = total + contribution (calculatePolygonAreaSqFt (geometry f))
  /\ nonneg_sf (Prim2SF (addFeature total f))
  /\ (truthy (addFeature total f) = false
      <-> truthy total = false /\ contributes_nothing f).
Proof.
  intros total f Htotal. unfold addFeature, contributes_nothing.
  destruct (calculatePolygonAreaSqFt (geometry f)) as [v|] eqn:Harea; cbn [contribution].
  - destruct (truthy_nonneg v (returned_area_nonneg _ _ Harea)) as [[Ht Hpos]|[Ht Hzero]];
      rewrite Ht.
    + assert (pos_sf (Prim2SF (total + v))) as Hsum.
      { rewrite FloatAxioms.add_spec.
        apply SFadd_pos; try apply Prim2SF_valid; assumption. }
      split; [reflexivity|]. split; [apply pos_sf_nonneg, Hsum|].
      rewrite (pos_sf_truthy _ Hsum). split; [discriminate|].
      intros [_ [H|H]]; [discriminate|].
      injection H as ->. rewrite truthy_zero in Ht. discriminate.
    + subst v. rewrite (plus_zero_nonneg total Htotal).
      split; [reflexivity|]. split; [exact Htotal|].
      split; [intros H; split; [exact H|right; reflexivity]|intros [H _]; exact H].
  - rewrite (plus_zero_nonneg total Htotal).
    split; [reflexivity|]. split; [exact Htotal|].
    split; [intros H; split; [exact H|left; reflexivity]|intros [H _]; exact H].
Qed.

Lemma fold_addFeature : forall fs total,
  nonneg_sf (Prim2SF total) ->
  fold_left addFeature fs total
  = fold_left (fun t f => t + contribution (calculatePolygonAreaSqFt (geometry f))) fs total
  /\ (truthy (fold_left addFeature fs total) = false
      <-> truthy total = false /\ Forall contributes_nothing fs).
Proof.
  induction fs as [|f fs IH]; intros total Htotal; cbn [fold_left].
  - split; [reflexivity|]. split; [intros H; split; [exact H|constructor]|intros [H _]; exact H].
  - destruct (addFeature_step total f Htotal) as (Hstep & Hnonneg & Hiff).
    destruct (IH (addFeature total f) Hnonneg) as (Hfold & Hfalse).
    split; [rewrite Hfold, Hstep; reflexivity|].
    rewrite Hfalse, Hiff. split.
    + intros [[Ht Hf] Hfs]. split; [exact Ht|constructor; assumption].
    + intros [Ht Hall]. inversion Hall; subst. repeat split; assumption.
Qed.

(** C6, as the code has it. The building total is the sum of the polygons'
    areas in response order, an unavailable polygon adding zero, rounded by
    [Math.round]; the result is the "unavailable" marker exactly when the
    response has no feature or every polygon yields the marker or an area
    of 0. *)
Theorem C6_total_over_features :
  forall fs : list Feature,
    fetchBuildingFootprintArea None = None
    /\ fetchBuildingFootprintArea (Some fs)
       = (if truthy (areaSum fs) then Some (Math_round (areaSum fs)) else None)
    /\ (fetchBuildingFootprintArea (Some fs) = None
        <-> Forall contributes_nothing fs).
Proof.
  intros fs. split; [reflexivity|].
  assert (nonneg_sf (Prim2SF 0)) as Hzero by reflexivity.
  destruct (fold_addFeature fs 0 Hzero) as (Hsum & Hfalse).
  assert (fetchBuildingFootprintArea (Some fs)
          = if truthy (areaSum fs) then Some (Math_round (areaSum fs)) else None) as Hres.
  { unfold areaSum. rewrite <- Hsum. destruct fs as [|f fs]; reflexivity. }
  split; [exact Hres|].
  rewrite Hres. unfold areaSum. rewrite <- Hsum. rewrite truthy_zero in Hfalse.
  destruct (truthy (fold_left addFeature fs 0)).
  - split; [discriminate|]. intros H. destruct Hfalse as [_ Hf].
    specialize (Hf (conj eq_refl H)). discriminate.
  - split; [intros _; apply Hfalse; reflexivity|reflexivity].
Qed.

End Claims.

(** C9. The fixed-multiplier function reads the first ring only: two
    geometries with the same first ring (or both with none) have the same
    outcome, whatever rings follow. *)
Theorem C9_legacy_reads_first_ring_only :
  forall rs1 rs2 : list Ring,
    hd_error rs1 = hd_error rs2 ->
    Legacy.calculatePolygonAreaSqFt (polygon rs1)
    = Legacy.calculatePolygonAreaSqFt (polygon rs2).
Proof.
  intros [|r1 rs1] [|r2 rs2] H; simpl in H; try discriminate; [reflexivity|].
  injection H as ->. reflexivity.
Qed.


(** ** Runs on the reference host and on concrete geometry *)

Section Runs.

Import Examples.

#[local] Existing Instance ReferenceHost.reference.

(** C2 at the one-degree square, on the reference host. *)
Lemma C2_projected_shoelace_witness :
  R = 6378137
  /\ Forall (fun ring => ringAreaMeters2 ring = spec_ring_magnitude ring) [ccw_square]
  /\ calculatePolygonAreaSqFt (polygon [ccw_square])
     = let sqft := fold_left spec_accumulate [ccw_square] 0 * 10.76391041671 in
       if 0 <? sqft then Some (Math_round sqft) else None.
Proof.
  apply (C2_projected_shoelace_and_conversion [ccw_square]).
  - discriminate.
  - repeat constructor; simpl; lia.
Defined.

(** C3 as stated fails on a total of +Infinity. The triangle with a vertex
    on the south pole has a non-finite total, and the function returns
    Infinity, not the "unavailable" marker. *)
Lemma C3_infinite_total_is_returned :
  is_finite (totalSqFt [pole_triangle]) = false
  /\ calculatePolygonAreaSqFt (polygon [pole_triangle]) = Some infinity.
Proof. split; vm_compute; reflexivity. Qed.



(** C7 at a two-point ring after the one-degree square. *)
Lemma C7_short_ring_witness :
  signedAreaLonLat_reads two_points = Some (signedAreaLonLat two_points)
  /\ ringAreaMeters2_reads two_points = Some 0
  /\ calculatePolygonAreaSqFt (polygon ([ccw_square] ++ two_points :: []))
     = calculatePolygonAreaSqFt (polygon ([ccw_square] ++ [])).
Proof.
  apply (C7_short_ring_contributes_nothing [ccw_square] [] two_points).
  simpl; lia.
Defined.

(** C4 on the one-degree square. Reversing the ring flips the sign of its
    signed area, from 1 to -1; the counter-clockwise square alone has an
    area of 133393462866 square feet, and the same square clockwise, sole
    ring of its polygon, has none on any host: a first ring of negative
    sign is subtracted, not treated as the outer ring. *)
Theorem C4_clockwise_sole_ring_is_unavailable :
  cw_square = rev ccw_square
  /\ signedAreaLonLat ccw_square = 1
  /\ signedAreaLonLat cw_square = -1
  /\ calculatePolygonAreaSqFt (polygon [ccw_square]) = Some 133393462866
  /\ (forall host : MathHost,
        calculatePolygonAreaSqFt (host := host) (polygon [cw_square]) = None).
Proof.
  split; [reflexivity|]. split; [reflexivity|]. split; [reflexivity|].
  split; [vm_compute; reflexivity|].
  intros host. apply negative_sole_ring_unavailable. reflexivity.
Qed.

(** C6 as stated fails: a response whose one polygon has an area of 0, not
    the marker, gives the marker. *)
Lemma C6_zero_area_feature_gives_unavailable :
  calculatePolygonAreaSqFt (polygon [tiny_triangle]) = Some 0
  /\ fetchBuildingFootprintArea (Some [mkFeature (polygon [tiny_triangle])]) = None.
Proof. split; vm_compute; reflexivity. Qed.

(** C10 as stated fails: the result on the triangle with a vertex on the
    south pole is Infinity, which is no whole number. *)
Lemma C10_infinity_is_returned :
  calculatePolygonAreaSqFt (polygon [pole_triangle]) = Some infinity
  /\ is_whole infinity = false.
Proof. split; vm_compute; reflexivity. Qed.

(** C10 at the centimetre triangle, whose total of 0.00067 square feet is
    returned as 0. *)
Lemma C10_result_witness :
  exists rs, polygon [tiny_triangle] = polygon rs
    /\ (0 <? totalSqFt rs) = true
    /\ 0 = Math_round (totalSqFt rs)
    /\ (0 = infinity \/ (is_whole 0 = true /\ (0 <=? 0) = true))
    /\ ((totalSqFt rs <? 0.5) = true -> 0 = 0).
Proof.
  apply (C10_result_is_whole_or_infinite (polygon [tiny_triangle]) 0).
  vm_compute. reflexivity.
Defined.

(** C8. On the one-degree square the fixed-multiplier function returns
    266191.247 and the Mercator function, on the reference host,
    133393462866; on no host do the two agree there, the first number being
    neither whole nor infinite. *)
Theorem C8_the_two_formulas_differ :
  exists g : option Geometry,
    Legacy.calculatePolygonAreaSqFt g = Legacy.Returned (Some 266191.24699999997)
    /\ calculatePolygonAreaSqFt g = Some 133393462866
    /\ (forall host : MathHost,
          Legacy.calculatePolygonAreaSqFt g
          <> Legacy.Returned (calculatePolygonAreaSqFt (host := host) g)).
Proof.
  exists (polygon [ccw_square]).
  assert (Legacy.calculatePolygonAreaSqFt (polygon [ccw_square])
          = Legacy.Returned (Some 266191.24699999997)) as Hlegacy
    by (vm_compute; reflexivity).
  split; [exact Hlegacy|]. split; [vm_compute; reflexivity|].
  intros host Heq.
  assert (calculatePolygonAreaSqFt (host := host) (polygon [ccw_square])
          = Some 266191.24699999997) as Harea
    by (rewrite Hlegacy in Heq; congruence).
  destruct (returned_area_whole _ _ Harea) as [Hinf|Hwhole].
  - apply (f_equal Prim2SF) in Hinf. vm_compute in Hinf. discriminate.
  - vm_compute in Hwhole. discriminate.
Qed.

End Runs.

(** C9 at two geometries that share the one-degree square as first ring. *)
Lemma C9_legacy_first_ring_witness :
  Legacy.calculatePolygonAreaSqFt (polygon [Examples.ccw_square; Examples.pinhole])
  = Legacy.calculatePolygonAreaSqFt (polygon [Examples.ccw_square]).
Proof.
  apply (C9_legacy_reads_first_ring_only
           [Examples.ccw_square; Examples.pinhole] [Examples.ccw_square]).
  reflexivity.
Defined.

(** * Edge behaviour of the area functions *)

Section MoreFloatFacts.

Lemma same_number_trans : forall a b c,
  same_number a b -> same_number b c -> same_number a c.
Proof.
  intros a b c [Hab|[Ha Hb]] [Hbc|[Hb' Hc]]; unfold same_number.
  - left. congruence.
  - right. rewrite Hab. split; assumption.
  - right. rewrite <- Hbc. split; assumption.
  - right. split; assumption.
Qed.

(** A non-positive number minus a non-negative one is not positive. *)
Lemma SFsub_sign : forall x y,
  has_sign true x -> sign_bit false y -> has_sign true (SF64sub x y).
Proof.
  intros x y Hx Hy.
  destruct x as [sx|sx| |sx mx ex].
  - apply SFsub_zero_sign, sign_bit_has_sign, Hy.
  - simpl in Hx. subst sx.
    destruct y as [sy|sy| |sy my ey]; simpl in Hy; subst; simpl; auto.
  - destruct y; simpl; auto.
  - simpl in Hx. subst sx.
    destruct y as [sy|sy| |sy my ey]; simpl in Hy; subst; [simpl; auto..|].
    unfold SF64sub, SFsub, cond_Zopp. cbn [Z.sub Z.opp Z.add binary_normalize].
    unfold binary_round.
    destruct (shl_align _ _ _) as [mz ez].
    apply binary_round_aux_sign.
Qed.

Lemma SFmul_sign_bit : forall x s my ey,
  sign_bit s x -> sign_bit s (SF64mul x (S754_finite false my ey)).
Proof.
  intros [sx|sx| |sx mx ex] s my ey Hx; simpl in *; subst; auto.
  - now rewrite xorb_false_r.
  - now rewrite xorb_false_r.
  - rewrite xorb_false_r. apply binary_round_aux_sign_bit.
Qed.

Lemma sign_bit_false_cases : forall a : float,
  sign_bit false (Prim2SF a) -> is_nan a = true \/ (0 <=? a) = true.
Proof.
  intros a H. unfold is_nan.
  rewrite FloatAxioms.eqb_spec, FloatAxioms.leb_spec, Prim2SF_zero.
  unfold SFeqb, SFleb.
  destruct (Prim2SF a) as [s|s| |s m e]; simpl in H; subst; auto.
Qed.

Lemma SFadd_comm : forall x y, SF64add x y = SF64add y x.
Proof.
  intros [sx|sx| |sx mx ex] [sy|sy| |sy my ey]; try reflexivity.
  - destruct sx, sy; reflexivity.
  - destruct sx, sy; reflexivity.
  - unfold SF64add, SFadd. rewrite (Z.min_comm ex ey).
    rewrite (Z.add_comm (cond_Zopp sx _)). reflexivity.
Qed.

(** Addition of Numbers is commutative. *)
Lemma float_add_comm : forall a b : float, a + b = b + a.
Proof.
  intros a b. apply Prim2SF_inj.
  rewrite !FloatAxioms.add_spec. apply SFadd_comm.
Qed.

End MoreFloatFacts.

Section EdgeBehaviour.

Context {host : MathHost}.

(** Neither helper of the area function can throw on a ring of points:
    the orientation loop and the magnitude loop read [ring[i]] only at
    indices inside the ring, whatever its length, the empty ring included. *)
Theorem helper_loops_read_inside_the_ring :
  forall ring : Ring,
    signedAreaLonLat_reads ring = Some (signedAreaLonLat ring)
    /\ ringAreaMeters2_reads ring = Some (ringAreaMeters2 ring).
Proof.
  intros ring. split.
  - apply signedAreaLonLat_reads_ok.
  - apply ringAreaMeters2_reads_ok.
Qed.

Lemma fold_addRing_negative : forall rs total,
  Forall (fun ring => (signedAreaLonLat ring <? 0) = true) rs ->
  has_sign true (Prim2SF total) ->
  has_sign true (Prim2SF (fold_left addRing rs total)).
Proof.
  induction rs as [|ring rs IH]; intros total Hall Htotal; cbn [fold_left].
  - exact Htotal.
  - inversion Hall as [|? ? Hring Hrest]; subst.
    apply IH; [exact Hrest|].
    unfold addRing. rewrite Hring. rewrite FloatAxioms.sub_spec.
    apply SFsub_sign; [exact Htotal|apply ringAreaMeters2_sign_bit].
Qed.

(** A polygon all of whose rings have a negative signed area (every ring
    clockwise, the order ESRI gives exterior rings) has no area: each ring
    is subtracted, the total is never positive, and the function returns
    [null]. *)
Theorem all_negative_rings_unavailable :
  forall rs : list Ring,
    Forall (fun ring => (signedAreaLonLat ring <? 0) = true) rs ->
    calculatePolygonAreaSqFt (polygon rs) = None.
Proof.
  intros rs Hall. rewrite calculatePolygonAreaSqFt_total.
  rewrite not_positive_after_conversion; [reflexivity|].
  apply fold_addRing_negative; [exact Hall|].
  rewrite Prim2SF_zero. exact I.
Qed.

Lemma fold_addRing_short : forall rs total,
  Forall (fun ring => (length ring < 3)%nat) rs ->
  same_number (fold_left addRing rs total) total.
Proof.
  induction rs as [|ring rs IH]; intros total Hall; cbn [fold_left].
  - apply same_number_refl.
  - inversion Hall as [|? ? Hring Hrest]; subst.
    apply same_number_trans with (addRing total ring).
    + apply IH, Hrest.
    + apply addRing_short, Hring.
Qed.

(** A polygon whose rings all have fewer than three points, however many
    rings there are, has no area: the function returns [null], as it does
    for an empty [rings] array. *)
Theorem short_rings_only_unavailable :
  forall rs : list Ring,
    Forall (fun ring => (length ring < 3)%nat) rs ->
    calculatePolygonAreaSqFt (polygon rs) = None.
Proof.
  intros rs Hall. rewrite calculatePolygonAreaSqFt_total. unfold totalMeters2.
  rewrite (same_number_conversion _ 0 (fold_addRing_short rs 0 Hall)).
  reflexivity.
Qed.

End EdgeBehaviour.

(** The area the fixed-multiplier function returns is never negative: it is
    NaN or at least 0, whatever the orientation of the first ring. *)
Theorem legacy_area_is_never_negative :
  forall (g : option Geometry) (a : float),
    Legacy.calculatePolygonAreaSqFt g = Legacy.Returned (Some a) ->
    is_nan a = true \/ (0 <=? a) = true.
Proof.
  intros [[[[|ring rest]|]]|] a H; simpl in H; try discriminate.
  injection H as <-. apply sign_bit_false_cases.
  unfold Math_abs. rewrite !FloatAxioms.mul_spec, FloatAxioms.abs_spec.
  assert (Prim2SF 12365 = S754_finite false 6797730638725120 (-39)) as -> by reflexivity.
  assert (Prim2SF 10.7639 = S754_finite false 6059537003631660 (-49)) as -> by reflexivity.
  apply SFmul_sign_bit, SFmul_sign_bit, SFabs_sign_bit.
Qed.

Lemma legacy_areaLoop_signedAreaLoop : forall ring fuel i j sum,
  Legacy.areaLoop ring fuel i j sum = signedAreaLoop ring fuel i j sum.
Proof.
  intros ring fuel. induction fuel as [|fuel IH]; intros i j sum.
  - reflexivity.
  - cbn [Legacy.areaLoop signedAreaLoop].
    destruct (at_index ring i) as [xi yi]. destruct (at_index ring j) as [xj yj].
    rewrite (float_add_comm yj yi). apply IH.
Qed.

(** The sum the fixed-multiplier function takes the absolute value of is
    the very sum whose half [signedAreaLonLat] returns: the orientation test
    of the Mercator version reads the sign that the earlier version
    discards. *)
Theorem legacy_sum_is_the_orientation_sum :
  forall (ring : Ring) (rest : list Ring),
    exists sum : float,
      signedAreaLonLat ring = sum / 2
      /\ Legacy.calculatePolygonAreaSqFt (polygon (ring :: rest))
         = Legacy.Returned (Some (Math_abs sum * 12365 * 10.7639)).
Proof.
  intros ring rest.
  exists (signedAreaLoop ring (length ring) 0 (length ring - 1) 0).
  split; [reflexivity|].
  unfold Legacy.calculatePolygonAreaSqFt, polygon. cbn [rings].
  rewrite legacy_areaLoop_signedAreaLoop. reflexivity.
Qed.

(** * The callers: parcel and building lookups, and the state they feed *)

Section RoundingTwice.

#[local] Open Scope Z_scope.

(** Rounding a rounded positive number changes nothing. *)
Lemma Math_round_idempotent : forall t : float,
  (0 <? t)%float = true -> Math_round (Math_round t) = Math_round t.
Proof.
  intros t Ht.
  destruct (Prim2SF_cases_positive t Ht) as [Hinf|(m & e & Hfin)].
  - assert (Math_round t = t) as Hv by (unfold Math_round; rewrite Hinf; reflexivity).
    rewrite Hv. exact Hv.
  - pose proof (Prim2SF_valid t) as Hvalid. rewrite Hfin in Hvalid.
    apply valid_finite_bounds in Hvalid as (_ & _ & Hm).
    destruct (Z.leb_spec 0 e) as [He|He].
    + assert (Math_round t = t) as Hv.
      { unfold Math_round. rewrite Hfin.
        destruct (Z.leb_spec 0 e); [reflexivity|lia]. }
      rewrite Hv. exact Hv.
    + pose proof (rounded_integer_bounds m e He Hm) as Hn.
      assert (Math_round t
              = let n := (Z.pos m + 2 ^ (- e - 1)) / 2 ^ (- e) in
                if n =? 0 then zero else if 0 <? n then float_of_Z n
                else (- float_of_Z (- n))%float) as Hv.
      { unfold Math_round. rewrite Hfin.
        destruct (Z.leb_spec 0 e); [lia|reflexivity]. }
      cbv zeta in Hv.
      set (n := (Z.pos m + 2 ^ (- e - 1)) / 2 ^ (- e)) in *.
      destruct (Z.eqb_spec n 0) as [Hz|Hz]; [rewrite Hv; reflexivity|].
      destruct (Z.ltb_spec 0 n) as [Hpos|Hneg]; [|lia].
      rewrite Hv.
      destruct (float_of_Z_exact n) as (mz & ez & Hsf & Hez & Hval); [lia|].
      unfold Math_round. rewrite Hsf.
      destruct (Z.leb_spec 0 ez) as [Hge|Hlt]; [reflexivity|].
      assert (0 < 2 ^ (- ez - 1)) by (apply Z.pow_pos_nonneg; lia).
      assert (2 ^ (- ez) = 2 * 2 ^ (- ez - 1)) as Hp.
      { replace (- ez) with (Z.succ (- ez - 1)) at 1 by lia. apply Z.pow_succ_r. lia. }
      assert ((Z.pos mz + 2 ^ (- ez - 1)) / 2 ^ (- ez) = n) as ->.
      { rewrite Hval, Z.div_add_l by lia. rewrite Z.div_small by lia. lia. }
      destruct (Z.eqb_spec n 0); [lia|].
      destruct (Z.ltb_spec 0 n); [reflexivity|lia].
Qed.

End RoundingTwice.

(** ** The application state *)



(** A stored area is [null] or a Number that is neither 0 nor NaN. *)
Definition stored_ok (v : option float) : Prop :=
  match v with
  | None => True
  | Some x => truthy x = true
  end.

Section Callers.

Context {host : MathHost}.

(** [fetchParcelArea] from the parsed response on: [features] is
    [data.features]; a failed request gives [null] like an absent one. *)
Definition fetchParcelArea (features : option (list Feature)) : option float :=
  match features with
  | None => None
  | Some [] => None
  | Some (first :: _) =>
      match calculatePolygonAreaSqFt (geometry first) with
      | Some areaSqFt => if truthy areaSqFt then Some (Math_round areaSqFt) else None
      | None => None
      end
  end.


Lemma fetchParcelArea_first : forall (first : Feature) (others : list Feature),
  fetchParcelArea (Some (first :: others))
  = match calculatePolygonAreaSqFt (geometry first) with
    | Some area => if truthy area then Some area else None
    | None => None
    end.
Proof.
  intros first others. unfold fetchParcelArea.
  destruct (calculatePolygonAreaSqFt (geometry first)) as [area|] eqn:Harea;
    [|reflexivity].
  destruct (returned_area _ _ Harea) as (rs & _ & Hpos & Hv).
  assert (Math_round area = area) as ->
    by (rewrite Hv; apply Math_round_idempotent, Hpos).
  reflexivity.
Qed.

Lemma fetchParcelArea_stored_ok : forall first others,
  stored_ok (fetchParcelArea (Some (first :: others))).
Proof.
  intros first others. rewrite fetchParcelArea_first.
  destruct (calculatePolygonAreaSqFt (geometry first)) as [area|]; [|exact I].
  destruct (truthy area) eqn:Ht; [exact Ht|exact I].
Qed.

(** The parcel area is the area of the first feature's polygon and of no
    other: the second [Math.round] changes nothing, later features are not
    read, and an area of 0 is reported as [null], so a parcel area is never
    0 or NaN. *)
Theorem parcel_area_is_first_polygon_area :
  forall (first : Feature) (others : list Feature),
    fetchParcelArea (Some (first :: others))
    = match calculatePolygonAreaSqFt (geometry first) with
      | Some area => if truthy area then Some area else None
      | None => None
      end
    /\ stored_ok (fetchParcelArea (Some (first :: others))).
Proof.
  intros first others. split.
  - apply fetchParcelArea_first.
  - apply fetchParcelArea_stored_ok.
Qed.

Lemma fetchBuildingFootprintArea_fold : forall fs,
  fetchBuildingFootprintArea (Some fs)
  = if truthy (fold_left addFeature fs 0)
    then Some (Math_round (fold_left addFeature fs 0)) else None.
Proof. intros [|f fs]; reflexivity. Qed.

Lemma addFeature_nothing : forall total f,
  contributes_nothing f -> addFeature total f = total.
Proof.
  intros total f [H|H]; unfold addFeature; rewrite H; reflexivity.
Qed.

(** A feature whose polygon has no area (geometry absent, no ring, or an
    area of 0 or none) does not disturb the building total: the result is
    the one over the other features, wherever the feature stands. *)
Theorem unusable_feature_is_skipped :
  forall (before after : list Feature) (f : Feature),
    contributes_nothing f ->
    fetchBuildingFootprintArea (Some (before ++ f :: after))
    = fetchBuildingFootprintArea (Some (before ++ after)).
Proof.
  intros before after f Hf. rewrite !fetchBuildingFootprintArea_fold.
  rewrite !fold_left_app. cbn [fold_left].
  rewrite (addFeature_nothing _ f Hf). reflexivity.
Qed.


End Callers.

(** ** The callers of the fixed-multiplier version (src/gis.js) *)

Module LegacyCallers.

(** The [forEach] over the features; [None] when a call of the area
    function throws, which ends the loop. *)
Fixpoint forEachFeature (fs : list Feature) (totalSqFt : float) : option float :=
  match fs with
  | [] => Some totalSqFt
  | feature :: rest =>
      match Legacy.calculatePolygonAreaSqFt (geometry feature) with
      | Legacy.Threw => None
      | Legacy.Returned area =>
          forEachFeature rest
            match area with
            | Some a => if truthy a then totalSqFt + a else totalSqFt
            | None => totalSqFt
            end
      end
  end.

(** [fetchBuildingFootprintArea] from the parsed response on; the [catch]
    returns [null]. *)
Definition fetchBuildingFootprintArea (features : option (list Feature)) : option float :=
  match features with
  | None => None
  | Some [] => None
  | Some fs =>
      match forEachFeature fs 0 with
      | Some totalSqFt => Some (Math_round totalSqFt)
      | None => None
      end
  end.

End LegacyCallers.

Lemma legacy_forEach_throws : forall (before after : list Feature) total,
  LegacyCallers.forEachFeature (before ++ mkFeature (polygon []) :: after) total = None.
Proof.
  induction before as [|f before IH]; intros after total.
  - reflexivity.
  - cbn [app LegacyCallers.forEachFeature].
    destruct (Legacy.calculatePolygonAreaSqFt (geometry f)); [apply IH|reflexivity].
Qed.

(** In the earlier version one feature with an empty [rings] array voids
    the whole building total: the area function throws on it, the loop
    ends, and the result is [null] whatever the other features hold. *)
Theorem legacy_empty_rings_feature_voids_the_total :
  forall before after : list Feature,
    LegacyCallers.fetchBuildingFootprintArea
      (Some (before ++ mkFeature (polygon []) :: after)) = None.
Proof.
  intros before after. unfold LegacyCallers.fetchBuildingFootprintArea.
  rewrite legacy_forEach_throws.
  destruct (before ++ mkFeature (polygon []) :: after); reflexivity.
Qed.

Lemma legacy_forEach_returns : forall (fs : list Feature) total,
  Forall (fun f => Legacy.calculatePolygonAreaSqFt (geometry f) <> Legacy.Threw) fs ->
  exists sum, LegacyCallers.forEachFeature fs total = Some sum.
Proof.
  induction fs as [|f fs IH]; intros total Hall.
  - exists total. reflexivity.
  - inversion Hall as [|? ? Hf Hfs]; subst. cbn [LegacyCallers.forEachFeature].
    destruct (Legacy.calculatePolygonAreaSqFt (geometry f)); [|congruence].
    apply IH, Hfs.
Qed.

(** In the earlier version a response with at least one feature, none with
    an empty [rings] array, always gives a Number, never [null]: it is 0
    when no polygon has an area. *)
Theorem legacy_building_total_is_a_number :
  forall fs : list Feature,
    fs <> [] ->
    Forall (fun f => Legacy.calculatePolygonAreaSqFt (geometry f) <> Legacy.Threw) fs ->
    (exists v, LegacyCallers.fetchBuildingFootprintArea (Some fs) = Some v)
    /\ (Forall (fun f => geometry f = None) fs ->
        LegacyCallers.fetchBuildingFootprintArea (Some fs) = Some 0).
Proof.
  intros fs Hne Hall. split.
  - destruct (legacy_forEach_returns fs 0 Hall) as (sum & Hsum).
    exists (Math_round sum). unfold LegacyCallers.fetchBuildingFootprintArea.
    rewrite Hsum. destruct fs; [congruence|reflexivity].
  - intros Hnone.
    assert (forall total, LegacyCallers.forEachFeature fs total = Some total) as Hsum.
    { clear Hne Hall. induction fs as [|f fs IH]; intros total; [reflexivity|].
      inversion Hnone as [|? ? Hf Hfs]; subst.
      cbn [LegacyCallers.forEachFeature]. rewrite Hf. cbn. apply IH, Hfs. }
    unfold LegacyCallers.fetchBuildingFootprintArea. rewrite Hsum.
    destruct fs; [congruence|reflexivity].
Qed.

(** ** Instances of the theorems above *)

Section MoreRuns.

Import Examples.

#[local] Existing Instance ReferenceHost.reference.

Lemma all_negative_rings_witness :
  calculatePolygonAreaSqFt (polygon [cw_square; pinhole]) = None.
Proof.
  apply (all_negative_rings_unavailable [cw_square; pinhole]).
  repeat constructor.
Defined.

Lemma short_rings_only_witness :
  calculatePolygonAreaSqFt (polygon [two_points; []; [(1, 2)]]) = None.
Proof.
  apply (short_rings_only_unavailable [two_points; []; [(1, 2)]]).
  repeat constructor; simpl; lia.
Defined.

Lemma legacy_area_witness :
  is_nan 266191.24699999997 = true \/ (0 <=? 266191.24699999997) = true.
Proof.
  apply (legacy_area_is_never_negative (polygon [cw_square]) 266191.24699999997).
  vm_compute. reflexivity.
Defined.

Lemma unusable_feature_witness :
  fetchBuildingFootprintArea
    (Some ([mkFeature (polygon [lot])] ++ mkFeature None :: [mkFeature (polygon [ccw_square])]))
  = fetchBuildingFootprintArea
      (Some ([mkFeature (polygon [lot])] ++ [mkFeature (polygon [ccw_square])])).
Proof.
  apply (unusable_feature_is_skipped [mkFeature (polygon [lot])]
           [mkFeature (polygon [ccw_square])] (mkFeature None)).
  left. reflexivity.
Defined.

Lemma legacy_building_total_witness :
  (exists v, LegacyCallers.fetchBuildingFootprintArea
               (Some [mkFeature None; mkFeature (polygon [ccw_square])]) = Some v)
  /\ (Forall (fun f => geometry f = None) [mkFeature None; mkFeature (polygon [ccw_square])] ->
      LegacyCallers.fetchBuildingFootprintArea
        (Some [mkFeature None; mkFeature (polygon [ccw_square])]) = Some 0).
Proof.
  apply (legacy_building_total_is_a_number
           [mkFeature None; mkFeature (polygon [ccw_square])]).
  - discriminate.
  - repeat constructor; discriminate.
Defined.

End MoreRuns.
